(** * gnome-session-restore: the window listing script and the session model

    The first half of this file embeds [src/js/list_all_windows.js], the
    script evaluated inside the shell to enumerate the open windows, and the
    parts of the design document that the session tool builds on top of that
    listing (command resolution, the session document, the window matcher).
    The second half states and proves the properties of these definitions. *)

From Stdlib Require Import ZArith List String Ascii Bool Lia Permutation.
Import ListNotations.
Local Open Scope string_scope.
Local Open Scope list_scope.
Local Open Scope Z_scope.
#[local] Set Warnings "-register-all".

(* ===================================================================== *)
(** ** The window-manager objects the script reads *)
(* ===================================================================== *)

Module Meta.

(** [Meta.Rectangle]: the frame rectangle of a window, in integer pixels. *)
Record Rectangle : Type := mkRectangle
  { x : Z; y : Z; width : Z; height : Z }.

(** [Meta.Window].  The properties and getters used by the script are
    fields; [wm_class] and the application ids are nullable.  A window that
    is transient for another one points to it, and the chain of parents is
    finite.  [get_sandboxed_app_id] exists on the object but the script
    never calls it. *)
Inductive Window : Type := mkWindow
  { wm_class : option string;
    get_frame_rect : Rectangle;
    minimized : bool;
    get_pid : Z;
    get_stable_sequence : Z;
    get_gtk_application_id : option string;
    get_sandboxed_app_id : option string;
    get_transient_for : option Window }.

(** [find_root_ancestor]: follow [transient_for] until a window without a
    parent is reached. *)
Fixpoint find_root_ancestor (w : Window) : Window :=
  match w with
  | mkWindow _ _ _ _ _ _ _ (Some parent) => find_root_ancestor parent
  | mkWindow _ _ _ _ _ _ _ None => w
  end.

(** [Meta.WindowActor]: the compositor actor of a window. *)
Record WindowActor : Type := mkActor { meta_window : Window }.

End Meta.

(* ===================================================================== *)
(** ** [list_all_windows.js] *)
(* ===================================================================== *)

Module Listing.

(** The inner object literal [geom: { x, y, width, height, minimized }]. *)
Record Geom : Type := mkGeom
  { x : Z; y : Z; width : Z; height : Z; minimized : bool }.

(** The object literal returned by the second [map] callback. *)
Record WindowData : Type := mkWindowData
  { window_class : option string;
    geom : Geom;
    pid : Z;
    stable_seq : Z;
    gtk_app_id : option string }.

(** [w => { let rect = w.get_frame_rect(); return {...} }] *)
Definition window_data (w : Meta.Window) : WindowData :=
  let rect := Meta.get_frame_rect w in
  {| window_class := Meta.wm_class w;
     geom := {| x := Meta.x rect;
                y := Meta.y rect;
                width := Meta.width rect;
                height := Meta.height rect;
                minimized := Meta.minimized w |};
     pid := Meta.get_pid w;
     stable_seq := Meta.get_stable_sequence w;
     gtk_app_id := Meta.get_gtk_application_id w |}.

(** [data => data.geom.x >= 0 && data.geom.y >= 0] *)
Definition origin_on_screen (data : WindowData) : bool :=
  (x (geom data) >=? 0) && (y (geom data) >=? 0).

(** The whole script, as a function of what [global.get_window_actors()]
    returns. *)
Definition list_all_windows (get_window_actors : list Meta.WindowActor)
  : list WindowData :=
  filter origin_on_screen
    (map window_data
       (map (fun a => Meta.find_root_ancestor (Meta.meta_window a))
          get_window_actors)).

(** The window a given actor is listed as. *)
Definition listed_window (a : Meta.WindowActor) : Meta.Window :=
  Meta.find_root_ancestor (Meta.meta_window a).

(** The window's frame rectangle has a non-negative origin. *)
Definition on_screen (w : Meta.Window) : bool :=
  (Meta.x (Meta.get_frame_rect w) >=? 0)
  && (Meta.y (Meta.get_frame_rect w) >=? 0).

(** The surviving windows, in the enumeration order of the actors. *)
Definition surviving_windows (actors : list Meta.WindowActor)
  : list Meta.Window :=
  filter on_screen (map listed_window actors).

(** [Meta.Window.minimized] overwritten, everything else kept. *)
Definition with_minimized (b : bool) (w : Meta.Window) : Meta.Window :=
  Meta.mkWindow (Meta.wm_class w) (Meta.get_frame_rect w) b
    (Meta.get_pid w) (Meta.get_stable_sequence w)
    (Meta.get_gtk_application_id w) (Meta.get_sandboxed_app_id w)
    (Meta.get_transient_for w).

End Listing.

(** Sample windows: a main window, a dialog that is transient for it, a
    window parked at a negative origin, and a sandboxed application. *)
Module Samples.

Definition main_window : Meta.Window :=
  Meta.mkWindow (Some "Gedit") (Meta.mkRectangle 10 20 800 600) false
    4242 7 (Some "org.gnome.gedit") None None.

Definition dialog_window : Meta.Window :=
  Meta.mkWindow (Some "Gedit") (Meta.mkRectangle 50 60 300 200) false
    4242 8 (Some "org.gnome.gedit") None (Some main_window).

Definition hidden_window : Meta.Window :=
  Meta.mkWindow None (Meta.mkRectangle (-100) (-100) 1 1) false
    913 3 None None None.

Definition minimized_window : Meta.Window :=
  Listing.with_minimized true main_window.

Definition sandboxed_window : Meta.Window :=
  Meta.mkWindow (Some "Gedit") (Meta.mkRectangle 10 20 800 600) false
    4242 7 (Some "org.gnome.gedit") (Some "org.gnome.gedit.flatpak") None.

Definition main_actor : Meta.WindowActor := Meta.mkActor main_window.
Definition dialog_actor : Meta.WindowActor := Meta.mkActor dialog_window.
Definition hidden_actor : Meta.WindowActor := Meta.mkActor hidden_window.

End Samples.

(* ===================================================================== *)
(** ** The session data model *)
(* ===================================================================== *)

Module Session.

(** Modelled from the spec: the [geometry] of a [WindowRecord]; the
    structure that holds it in the session tool is not among the sources. *)
Record Geometry : Type := mkGeometry
  { x : Z; y : Z; width : Z; height : Z; minimized : bool }.

(** Modelled from the spec: [WindowRecord], one captured window, with its
    two optional application ids; the tool's own declaration is not among
    the sources. *)
Record WindowRecord : Type := mkWindowRecord
  { window_class : string;
    geometry : Geometry;
    pid : Z;
    stable_sequence : Z;
    gtk_app_id : option string;
    sandboxed_app_id : option string }.

(** Modelled from the spec: the provenance tag of a resolved command. *)
Inductive CommandSource : Type :=
| GtkAppId
| SandboxedAppId
| WmClassOrExeHeuristic
| RawCmdline.

(** Modelled from the spec: [ResolvedCommand], the output of the Command
    Resolver. *)
Record ResolvedCommand : Type := mkResolvedCommand
  { argv : list string; source : CommandSource }.

(** Modelled from the spec: [SessionDocument], the pairs in capture
    order. *)
Definition SessionDocument : Type := list (WindowRecord * ResolvedCommand).

End Session.

(* ===================================================================== *)
(** ** The listing seen as the extension interface *)
(* ===================================================================== *)

Module Interface.

(** In the words of the data model: a [WindowRecord] describes a window
    when each of its six fields holds the corresponding property of the
    window (an absent class reads as the empty string). *)
Definition describes (r : Session.WindowRecord) (w : Meta.Window) : Prop :=
  Session.window_class r
  = match Meta.wm_class w with Some c => c | None => "" end
  /\ Session.x (Session.geometry r) = Meta.x (Meta.get_frame_rect w)
  /\ Session.y (Session.geometry r) = Meta.y (Meta.get_frame_rect w)
  /\ Session.width (Session.geometry r) = Meta.width (Meta.get_frame_rect w)
  /\ Session.height (Session.geometry r) = Meta.height (Meta.get_frame_rect w)
  /\ Session.minimized (Session.geometry r) = Meta.minimized w
  /\ Session.pid r = Meta.get_pid w
  /\ Session.stable_sequence r = Meta.get_stable_sequence w
  /\ Session.gtk_app_id r = Meta.get_gtk_application_id w
  /\ Session.sandboxed_app_id r = Meta.get_sandboxed_app_id w.

(** In the words of the interface: the records of the listing carry the six
    [WindowRecord] fields, that is, some reading of a listed record yields
    the [WindowRecord] of its window. *)
Definition carries_window_record_fields : Prop :=
  exists read : Listing.WindowData -> Session.WindowRecord,
    forall w : Meta.Window, describes (read (Listing.window_data w)) w.

End Interface.

(* ===================================================================== *)
(** ** Command Resolver *)
(* ===================================================================== *)

Module Resolver.

Import Session.

(** Modelled from the spec: the Desktop Entry Locator,
    [lookup(identifier) -> argv | not_found]. *)
Class DesktopEntryLocator : Type :=
  lookup : string -> option (list string).

(** Modelled from the spec: the Process Inspector,
    [read_cmdline(pid) -> sequence of string | not_found]. *)
Class ProcessInspector : Type :=
  read_cmdline : Z -> option (list string).

(** Modelled from the spec: the per-window failure reasons of the error
    taxonomy. *)
Inductive FailureReason : Type := ProcessGone | NoDesktopEntry.

(** Modelled from the spec: the result type of
    [resolve(record) -> ResolvedCommand | ResolutionFailure]. *)
Inductive Resolution : Type :=
| Resolved (command : ResolvedCommand)
| ResolutionFailure (reason : FailureReason).

Definition is_slash (c : ascii) : bool := Ascii.eqb c "/"%char.

Fixpoint has_slash (s : string) : bool :=
  match s with
  | EmptyString => false
  | String c rest => is_slash c || has_slash rest
  end.

(** Modelled from the spec: the executable's base name, the part of a
    path after its last separator. *)
Fixpoint base_name (s : string) : string :=
  match s with
  | EmptyString => EmptyString
  | String c rest =>
      if has_slash rest then base_name rest
      else if is_slash c then rest else s
  end.

(** An application id that is present and non-empty. *)
Definition usable_id (id : option string) : option string :=
  match id with
  | Some s => if String.eqb s "" then None else Some s
  | None => None
  end.

Section Chain.

Context {locator : DesktopEntryLocator} {inspector : ProcessInspector}.

(** Modelled from the spec: steps 1 and 2 of the fallback chain, the query
    of the locator with an application id that is present and
    non-empty. *)
Definition lookup_app_id (id : option string) : option (list string) :=
  match usable_id id with
  | Some s => lookup s
  | None => None
  end.

(** Modelled from the spec: the executable base name of the live
    process, from the first of its command-line arguments. *)
Definition executable_base_name (p : Z) : option string :=
  match read_cmdline p with
  | Some (exe :: _) => Some (base_name exe)
  | _ => None
  end.

(** Modelled from the spec: step 3, the locator queried with the window
    class and then, on a miss, with the executable base name. *)
Definition lookup_heuristic (record : WindowRecord) : option (list string) :=
  let exe := executable_base_name (pid record) in
  match lookup (window_class record) with
  | Some command => Some command
  | None =>
      match exe with
      | Some name => lookup name
      | None => None
      end
  end.

(** Modelled from the spec: step 4, the live command line of the
    process. *)
Definition raw_cmdline (record : WindowRecord) : Resolution :=
  match read_cmdline (pid record) with
  | None => ResolutionFailure ProcessGone
  | Some [] => ResolutionFailure ProcessGone
  | Some args => Resolved (mkResolvedCommand args RawCmdline)
  end.

(** Modelled from the spec: [resolve], the fallback chain of the Command
    Resolver, tried in fixed order, first success wins.  The resolver
    itself is not among the sources. *)
Definition resolve (record : WindowRecord) : Resolution :=
  match lookup_app_id (gtk_app_id record) with
  | Some command => Resolved (mkResolvedCommand command GtkAppId)
  | None =>
      match lookup_app_id (sandboxed_app_id record) with
      | Some command => Resolved (mkResolvedCommand command SandboxedAppId)
      | None =>
          match lookup_heuristic record with
          | Some command =>
              Resolved (mkResolvedCommand command WmClassOrExeHeuristic)
          | None => raw_cmdline record
          end
      end
  end.

End Chain.

End Resolver.

(* ===================================================================== *)
(** ** Session Capturer *)
(* ===================================================================== *)

Module Capturer.

Import Session.

Section Capture.

Context {locator : Resolver.DesktopEntryLocator}
        {inspector : Resolver.ProcessInspector}.

(** Modelled from the spec: the geometry filter of the data model
    invariant. *)
Definition geometry_filter (record : WindowRecord) : bool :=
  (x (geometry record) >=? 0) && (y (geometry record) >=? 0).

(** Modelled from the spec: the pair of a record whose resolution
    succeeded; a failed resolution drops the window. *)
Definition resolved_pair (record : WindowRecord)
  : list (WindowRecord * ResolvedCommand) :=
  match Resolver.resolve record with
  | Resolver.Resolved command => [(record, command)]
  | Resolver.ResolutionFailure _ => []
  end.

Definition resolves (record : WindowRecord) : bool :=
  match Resolver.resolve record with
  | Resolver.Resolved _ => true
  | Resolver.ResolutionFailure _ => false
  end.

(** Modelled from the spec: [capture], from the windows of one extension
    query to the session document; the capturer is not among the
    sources. *)
Definition capture (windows : list WindowRecord) : SessionDocument :=
  flat_map resolved_pair (filter geometry_filter windows).

End Capture.

End Capturer.

(* ===================================================================== *)
(** ** Session document format *)
(* ===================================================================== *)

Module Document.

Import Session.

(** Modelled from the spec: the structured text document, taken at the
    level of its values (objects, arrays, strings, integers, booleans and
    null); the reader and writer of the tool are not among the sources. *)
Inductive JSON : Type :=
| JNull
| JBool (b : bool)
| JNum (n : Z)
| JStr (s : string)
| JArr (items : list JSON)
| JObj (fields : list (string * JSON)).

Definition bind {A B : Type} (o : option A) (k : A -> option B) : option B :=
  match o with
  | Some a => k a
  | None => None
  end.

Notation "x <- o ;; k" := (bind o (fun x => k))
  (at level 61, o at next level, right associativity).

Fixpoint traverse {A B : Type} (f : A -> option B) (l : list A)
  : option (list B) :=
  match l with
  | [] => Some []
  | a :: rest =>
      b <- f a ;;
      bs <- traverse f rest ;;
      Some (b :: bs)
  end.

(** The first field of an object with the given name. *)
Fixpoint get_field (name : string) (fields : list (string * JSON))
  : option JSON :=
  match fields with
  | [] => None
  | (k, v) :: rest => if String.eqb k name then Some v else get_field name rest
  end.

(** *** Writing *)

Definition source_name (s : CommandSource) : string :=
  match s with
  | GtkAppId => "GtkAppId"
  | SandboxedAppId => "SandboxedAppId"
  | WmClassOrExeHeuristic => "WmClassOrExeHeuristic"
  | RawCmdline => "RawCmdline"
  end.

Definition serialize_geometry (g : Geometry) : JSON :=
  JObj [ ("x", JNum (x g));
         ("y", JNum (y g));
         ("width", JNum (width g));
         ("height", JNum (height g));
         ("minimized", JBool (minimized g)) ].

(** Modelled from the spec: an optional field is omitted when absent, or
    written as null when [omit_absent] is off. *)
Definition optional_field (omit_absent : bool) (name : string)
    (value : option string) : list (string * JSON) :=
  match value with
  | Some s => [ (name, JStr s) ]
  | None => if omit_absent then [] else [ (name, JNull) ]
  end.

(** Modelled from the spec: one object per pair, with the fields of the
    [WindowRecord] and of its [ResolvedCommand]. *)
Definition serialize_pair (omit_absent : bool)
    (pair : WindowRecord * ResolvedCommand) : JSON :=
  let (record, command) := pair in
  JObj ([ ("window_class", JStr (window_class record));
          ("geometry", serialize_geometry (geometry record));
          ("pid", JNum (pid record));
          ("stable_sequence", JNum (stable_sequence record)) ]
        ++ optional_field omit_absent "gtk_app_id" (gtk_app_id record)
        ++ optional_field omit_absent "sandboxed_app_id"
             (sandboxed_app_id record)
        ++ [ ("argv", JArr (map JStr (argv command)));
             ("source", JStr (source_name (source command))) ]).

(** Modelled from the spec: the document is one array of objects. *)
Definition serialize_with (omit_absent : bool) (doc : SessionDocument) : JSON :=
  JArr (map (serialize_pair omit_absent) doc).

(** Modelled from the spec: the writer omits absent optional fields. *)
Definition serialize (doc : SessionDocument) : JSON := serialize_with true doc.

(** *** Reading *)

Definition as_num (j : JSON) : option Z :=
  match j with JNum n => Some n | _ => None end.

Definition as_str (j : JSON) : option string :=
  match j with JStr s => Some s | _ => None end.

Definition as_bool (j : JSON) : option bool :=
  match j with JBool b => Some b | _ => None end.

Definition as_array (j : JSON) : option (list JSON) :=
  match j with JArr items => Some items | _ => None end.

Definition as_object (j : JSON) : option (list (string * JSON)) :=
  match j with JObj fields => Some fields | _ => None end.

(** Modelled from the spec: an optional field is accepted both when it is
    missing and when it is null. *)
Definition optional_str (j : option JSON) : option (option string) :=
  match j with
  | None => Some None
  | Some JNull => Some None
  | Some (JStr s) => Some (Some s)
  | Some _ => None
  end.

Definition required {A : Type} (decode : JSON -> option A) (name : string)
    (fields : list (string * JSON)) : option A :=
  j <- get_field name fields ;; decode j.

Definition parse_source (name : string) : option CommandSource :=
  if String.eqb name "GtkAppId" then Some GtkAppId
  else if String.eqb name "SandboxedAppId" then Some SandboxedAppId
  else if String.eqb name "WmClassOrExeHeuristic" then Some WmClassOrExeHeuristic
  else if String.eqb name "RawCmdline" then Some RawCmdline
  else None.

Definition parse_geometry (j : JSON) : option Geometry :=
  fields <- as_object j ;;
  gx <- required as_num "x" fields ;;
  gy <- required as_num "y" fields ;;
  gw <- required as_num "width" fields ;;
  gh <- required as_num "height" fields ;;
  gm <- required as_bool "minimized" fields ;;
  Some (mkGeometry gx gy gw gh gm).

Definition parse_pair (j : JSON) : option (WindowRecord * ResolvedCommand) :=
  fields <- as_object j ;;
  wc <- required as_str "window_class" fields ;;
  g <- required parse_geometry "geometry" fields ;;
  p <- required as_num "pid" fields ;;
  seq <- required as_num "stable_sequence" fields ;;
  gtk <- optional_str (get_field "gtk_app_id" fields) ;;
  sandboxed <- optional_str (get_field "sandboxed_app_id" fields) ;;
  args <- required as_array "argv" fields ;;
  args <- traverse as_str args ;;
  src <- required as_str "source" fields ;;
  src <- parse_source src ;;
  Some (mkWindowRecord wc g p seq gtk sandboxed, mkResolvedCommand args src).

(** Modelled from the spec: reading a document back. *)
Definition parse (j : JSON) : option SessionDocument :=
  items <- as_array j ;; traverse parse_pair items.

End Document.

(* ===================================================================== *)
(** ** Window Matcher *)
(* ===================================================================== *)

Module Matcher.

(** Modelled from the spec: a live window observation, the first half of a
    [MatchCandidate]; the matcher is not among the sources. *)
Record Observation : Type := mkObservation
  { window_class : string;
    pid : Z;
    stable_sequence : Z;
    geometry : Session.Geometry }.

(** Modelled from the spec: the states of a record during one run.  A
    matched record remembers the stable sequence of the observed window it
    was assigned. *)
Inductive MatchState : Type :=
| Pending
| Matched (assigned : Z)
| TimedOut.

(** Modelled from the spec: a saved record, the pid launched for it and
    its state. *)
Record Entry : Type := mkEntry
  { record : Session.WindowRecord;
    launched_pid : Z;
    state : MatchState }.

(** Modelled from the spec: the move/resize request issued on a match. *)
Record MoveRequest : Type := mkMoveRequest
  { target : Z; saved_geometry : Session.Geometry }.

(** Modelled from the spec: the state of one matcher run, with its
    consumption set of observed windows. *)
Record Run : Type := mkRun
  { entries : list Entry;
    consumed : list Z;
    requests : list MoveRequest }.

(** Modelled from the spec: whether the owning process of an observed
    window traces back to a launched pid; [None] when that information is
    not available. *)
Class ProcessAncestry : Type :=
  traces_back : Z -> Z -> option bool.

(** Modelled from the spec: the window list the extension reports at each
    poll; [None] is a failed poll. *)
Class Extension : Type :=
  list_windows : nat -> option (list Observation).

Definition mem (s : Z) (l : list Z) : bool := existsb (Z.eqb s) l.

Definition is_pending (e : Entry) : bool :=
  match state e with Pending => true | _ => false end.

Definition with_state (e : Entry) (s : MatchState) : Entry :=
  mkEntry (record e) (launched_pid e) s.

(** Modelled from the spec: an observed window not yet consumed in this
    run, whose class equals the record's. *)
Definition is_candidate (used : list Z) (class : string) (o : Observation)
  : bool :=
  negb (mem (stable_sequence o) used) && String.eqb (window_class o) class.

Section Loop.

Context {ancestry : ProcessAncestry} {extension : Extension}.

Definition from_launched (e : Entry) (o : Observation) : bool :=
  match traces_back (pid o) (launched_pid e) with
  | Some true => true
  | _ => false
  end.

(** Modelled from the spec: the scan for one pending record.  A record
    with an empty class matches nothing; among several candidates the one
    whose process descends from the launched pid is preferred, otherwise
    the first in enumeration order. *)
Definition choose (used : list Z) (e : Entry) (observed : list Observation)
  : option Observation :=
  let class := Session.window_class (record e) in
  if String.eqb class "" then None
  else
    let candidates := filter (is_candidate used class) observed in
    match find (from_launched e) candidates with
    | Some o => Some o
    | None => hd_error candidates
    end.

(** Modelled from the spec: one poll over the records, in order.  On a
    match the request is issued, the record marked and the observed window
    consumed. *)
Fixpoint poll_entries (observed : list Observation) (es : list Entry)
    (used : list Z) (sent : list MoveRequest)
  : list Entry * list Z * list MoveRequest :=
  match es with
  | [] => ([], used, sent)
  | e :: rest =>
      match state e with
      | Pending =>
          match choose used e observed with
          | Some o =>
              let request :=
                mkMoveRequest (stable_sequence o)
                  (Session.geometry (record e)) in
              let '(rest', used', sent') :=
                poll_entries observed rest (stable_sequence o :: used)
                  (sent ++ [request]) in
              (with_state e (Matched (stable_sequence o)) :: rest',
               used', sent')
          | None =>
              let '(rest', used', sent') :=
                poll_entries observed rest used sent in
              (e :: rest', used', sent')
          end
      | _ =>
          let '(rest', used', sent') :=
            poll_entries observed rest used sent in
          (e :: rest', used', sent')
      end
  end.

Definition poll (observed : list Observation) (run : Run) : Run :=
  let '(es, used, sent) :=
    poll_entries observed (entries run) (consumed run) (requests run) in
  mkRun es used sent.

(** Modelled from the spec: a failed poll ends that cycle and changes
    nothing. *)
Definition poll_cycle (result : option (list Observation)) (run : Run)
  : Run :=
  match result with
  | Some observed => poll observed run
  | None => run
  end.

Definition expire (e : Entry) : Entry :=
  match state e with
  | Pending => with_state e TimedOut
  | _ => e
  end.

(** Modelled from the spec: when the total timeout elapses the records
    still pending become timed out. *)
Definition time_out (run : Run) : Run :=
  mkRun (map expire (entries run)) (consumed run) (requests run).

Definition settled (run : Run) : bool :=
  forallb (fun e => negb (is_pending e)) (entries run).

(** Modelled from the spec: the polling loop, at most [polls_left] more
    polls at the fixed interval, until every record is settled or the
    timeout elapses.  The result lists the run after each step. *)
Fixpoint matcher_trace (polls_left : nat) (tick : nat) (run : Run)
  : list Run :=
  run ::
  (if settled run then []
   else
     match polls_left with
     | O => [time_out run]
     | S n => matcher_trace n (S tick) (poll_cycle (list_windows tick) run)
     end).

Fixpoint matcher_loop (polls_left : nat) (tick : nat) (run : Run) : Run :=
  if settled run then run
  else
    match polls_left with
    | O => time_out run
    | S n => matcher_loop n (S tick) (poll_cycle (list_windows tick) run)
    end.

Definition start (launched : list (Session.WindowRecord * Z)) : Run :=
  mkRun (map (fun '(r, p) => mkEntry r p Pending) launched) [] [].


End Loop.




(** The state of the record at a given position. *)
Definition state_at (i : nat) (run : Run) : option MatchState :=
  option_map state (nth_error (entries run) i).

End Matcher.

(* ===================================================================== *)
(** ** Sample collaborators and records *)
(* ===================================================================== *)

Module Fakes.

Import Session.

(** A locator that knows two desktop entries. *)
Definition two_entries : Resolver.DesktopEntryLocator :=
  fun identifier =>
    if String.eqb identifier "org.gnome.gedit" then Some ["gedit"]
    else if String.eqb identifier "org.gnome.gedit.flatpak"
         then Some ["flatpak"; "run"; "org.gnome.gedit"]
         else None.

(** A process table with the single live process 100. *)
Definition one_process : Resolver.ProcessInspector :=
  fun p => if Z.eqb p 100 then Some ["/usr/bin/foo"; "--bar"] else None.

Definition plain_geometry : Geometry := mkGeometry 10 20 800 600 false.

Definition both_ids : WindowRecord :=
  mkWindowRecord "Gedit" plain_geometry 100 7
    (Some "org.gnome.gedit") (Some "org.gnome.gedit.flatpak").

Definition no_ids_live : WindowRecord :=
  mkWindowRecord "Foo" plain_geometry 100 8 None None.

Definition no_ids_gone : WindowRecord :=
  mkWindowRecord "Foo" plain_geometry 555 9 None (Some "").

Definition no_class : WindowRecord :=
  mkWindowRecord "" plain_geometry 100 10 None None.

Definition sample_document : SessionDocument :=
  [ (both_ids, mkResolvedCommand ["gedit"] GtkAppId);
    (no_ids_live, mkResolvedCommand ["/usr/bin/foo"; "--bar"] RawCmdline) ].

(** No ancestry information at all. *)
Definition no_ancestry : Matcher.ProcessAncestry := fun _ _ => None.

Definition gedit_one : Matcher.Observation :=
  Matcher.mkObservation "Gedit" 300 41 plain_geometry.

Definition gedit_two : Matcher.Observation :=
  Matcher.mkObservation "Gedit" 301 42 plain_geometry.

(** An extension that reports the same two windows at every poll. *)
Definition two_gedit_windows : Matcher.Extension :=
  fun _ => Some [gedit_one; gedit_two].


End Fakes.

(* ===================================================================== *)
(** * Properties of the listing *)
(* ===================================================================== *)

Section ListingFacts.

Import Listing.

Lemma origin_on_screen_spec (data : WindowData) :
  origin_on_screen data = true <-> 0 <= x (geom data) /\ 0 <= y (geom data).
Proof.
  unfold origin_on_screen.
  rewrite andb_true_iff, !Z.geb_le. reflexivity.
Qed.

Lemma list_all_windows_unfold (actors : list Meta.WindowActor) :
  list_all_windows actors
  = filter origin_on_screen (map (fun a => window_data (listed_window a)) actors).
Proof.
  unfold list_all_windows, listed_window. now rewrite map_map.
Qed.

Lemma in_list_all_windows (actors : list Meta.WindowActor) (data : WindowData) :
  In data (list_all_windows actors)
  <-> (exists a, In a actors /\ data = window_data (listed_window a))
      /\ origin_on_screen data = true.
Proof.
  rewrite list_all_windows_unfold, filter_In, in_map_iff.
  split; intros [[a Ha] Hk]; (split; [exists a|exact Hk]); intuition.
Qed.

Lemma list_all_windows_app (l1 l2 : list Meta.WindowActor) :
  list_all_windows (l1 ++ l2) = list_all_windows l1 ++ list_all_windows l2.
Proof.
  unfold list_all_windows. now rewrite !map_app, filter_app.
Qed.

Lemma on_screen_window_data (w : Meta.Window) :
  origin_on_screen (window_data w) = on_screen w.
Proof. reflexivity. Qed.

Lemma window_data_inj_origin (w1 w2 : Meta.Window) :
  window_data w1 = window_data w2 -> on_screen w1 = on_screen w2.
Proof.
  intros E. rewrite <- !on_screen_window_data. now rewrite E.
Qed.

(** Positions in a filtered list come from positions of the original list,
    in the same relative order. *)
Lemma filter_nth_error_order {A : Type} (keep : A -> bool) (l : list A) :
  forall (i j : nat) (u v : A),
    (i < j)%nat ->
    nth_error (filter keep l) i = Some u ->
    nth_error (filter keep l) j = Some v ->
    exists i' j' : nat,
      (i' < j')%nat /\ nth_error l i' = Some u /\ nth_error l j' = Some v.
Proof.
  induction l as [|a l IH]; intros i j u v Hij Hi Hj.
  - destruct i; discriminate Hi.
  - simpl in Hi, Hj. destruct (keep a).
    + destruct j as [|j]; [lia|]. destruct i as [|i].
      * simpl in Hi, Hj. apply nth_error_In in Hj.
        apply filter_In in Hj as [Hv _].
        apply In_nth_error in Hv as [k Hk].
        exists 0%nat, (S k). repeat split; [lia|exact Hi|exact Hk].
      * simpl in Hi, Hj.
        destruct (IH i j u v) as (i' & j' & Hlt & Hu & Hv); [lia|assumption..|].
        exists (S i'), (S j'). repeat split; [lia|assumption..].
    + destruct (IH i j u v) as (i' & j' & Hlt & Hu & Hv); [assumption..|].
      exists (S i'), (S j'). repeat split; [lia|assumption..].
Qed.

Lemma filter_map_commute {A B : Type} (f : A -> B) (keep : B -> bool)
    (l : list A) :
  filter keep (map f l) = map f (filter (fun a => keep (f a)) l).
Proof.
  induction l as [|a l IH]; [reflexivity|].
  simpl. destruct (keep (f a)); simpl; now rewrite IH.
Qed.

(** Two actors listed as the same on-screen window give the same record
    twice. *)
Lemma shared_root_listed_twice (a1 a2 : Meta.WindowActor) :
  listed_window a1 = listed_window a2 ->
  on_screen (listed_window a1) = true ->
  list_all_windows [a1; a2]
  = [window_data (listed_window a1); window_data (listed_window a1)].
Proof.
  intros Hroot Hon. rewrite list_all_windows_unfold. simpl.
  rewrite <- Hroot, !on_screen_window_data, Hon. reflexivity.
Qed.

End ListingFacts.

(** C1.  For every actor of the enumerated list, the record of its window is
    in the listing if and only if the origin of the window's frame rectangle
    is non-negative; a window with a negative coordinate is not listed; and
    every record of the listing has [geom.x >= 0] and [geom.y >= 0]. *)
Theorem listing_keeps_exactly_nonnegative_origins
    (actors : list Meta.WindowActor) :
  (forall a : Meta.WindowActor,
      In a actors ->
      let w := Listing.listed_window a in
      (In (Listing.window_data w) (Listing.list_all_windows actors)
       <-> 0 <= Meta.x (Meta.get_frame_rect w)
           /\ 0 <= Meta.y (Meta.get_frame_rect w))
      /\ (Meta.x (Meta.get_frame_rect w) < 0
          \/ Meta.y (Meta.get_frame_rect w) < 0 ->
          ~ In (Listing.window_data w) (Listing.list_all_windows actors)))
  /\ (forall data : Listing.WindowData,
        In data (Listing.list_all_windows actors) ->
        0 <= Listing.x (Listing.geom data) /\ 0 <= Listing.y (Listing.geom data)).
Proof.
  assert (Hiff : forall a, In a actors ->
            (In (Listing.window_data (Listing.listed_window a))
                (Listing.list_all_windows actors)
             <-> 0 <= Meta.x (Meta.get_frame_rect (Listing.listed_window a))
                 /\ 0 <= Meta.y (Meta.get_frame_rect (Listing.listed_window a)))).
  { intros a Ha. rewrite in_list_all_windows, origin_on_screen_spec. simpl.
    split; [tauto|]. intros H. split; [|exact H]. now exists a. }
  split.
  - intros a Ha w. split; [apply Hiff, Ha|].
    intros Hneg Hin. apply (Hiff a Ha) in Hin. subst w. lia.
  - intros data Hin. apply in_list_all_windows in Hin as [_ Hk].
    now apply origin_on_screen_spec.
Qed.

(** An on-screen window next to a window parked at a negative origin: only
    the first is listed. *)
Lemma listing_keeps_exactly_nonnegative_origins_witness :
  In Samples.main_actor [Samples.main_actor; Samples.hidden_actor]
  /\ In (Listing.window_data Samples.main_window)
       (Listing.list_all_windows [Samples.main_actor; Samples.hidden_actor])
  /\ ~ In (Listing.window_data Samples.hidden_window)
         (Listing.list_all_windows [Samples.main_actor; Samples.hidden_actor]).
Proof.
  pose proof (listing_keeps_exactly_nonnegative_origins
                [Samples.main_actor; Samples.hidden_actor]) as [H _].
  split; [simpl; auto|]. split.
  - apply (H Samples.main_actor); [simpl; auto|]. simpl. lia.
  - apply (H Samples.hidden_actor); [simpl; auto|]. simpl. lia.
Defined.

(** C2 (as stated, refuted).  No reading of the listing's records yields the
    six [WindowRecord] fields: a sandboxed window and an unsandboxed one that
    agree on everything else are listed with the same record, so the
    [sandboxed_app_id] of the window is not carried. *)
Lemma listing_drops_sandboxed_app_id :
  Listing.window_data Samples.sandboxed_window
  = Listing.window_data Samples.main_window
  /\ Meta.get_sandboxed_app_id Samples.sandboxed_window
     <> Meta.get_sandboxed_app_id Samples.main_window
  /\ ~ Interface.carries_window_record_fields.
Proof.
  split; [reflexivity|]. split; [discriminate|].
  intros [read Hread].
  pose proof (Hread Samples.sandboxed_window) as Hs.
  pose proof (Hread Samples.main_window) as Hm.
  unfold Interface.describes in Hs, Hm.
  assert (E : Listing.window_data Samples.sandboxed_window
              = Listing.window_data Samples.main_window) by reflexivity.
  rewrite E in Hs.
  destruct Hs as (_ & _ & _ & _ & _ & _ & _ & _ & _ & Hs).
  destruct Hm as (_ & _ & _ & _ & _ & _ & _ & _ & _ & Hm).
  rewrite Hs in Hm. discriminate Hm.
Qed.

(** C2 (amended).  Every record of the listing carries exactly five fields,
    [window_class], [geom] with [x], [y], [width], [height] and [minimized],
    [pid], [stable_seq] and [gtk_app_id], each read from the listed window;
    two windows have the same record exactly when they agree on these
    properties, whatever their sandboxed application ids are. *)
Theorem listing_record_carries_five_fields
    (actors : list Meta.WindowActor) (data : Listing.WindowData) :
  In data (Listing.list_all_windows actors) ->
  (exists a : Meta.WindowActor,
      In a actors
      /\ Listing.window_class data = Meta.wm_class (Listing.listed_window a)
      /\ Listing.x (Listing.geom data)
         = Meta.x (Meta.get_frame_rect (Listing.listed_window a))
      /\ Listing.y (Listing.geom data)
         = Meta.y (Meta.get_frame_rect (Listing.listed_window a))
      /\ Listing.width (Listing.geom data)
         = Meta.width (Meta.get_frame_rect (Listing.listed_window a))
      /\ Listing.height (Listing.geom data)
         = Meta.height (Meta.get_frame_rect (Listing.listed_window a))
      /\ Listing.minimized (Listing.geom data)
         = Meta.minimized (Listing.listed_window a)
      /\ Listing.pid data = Meta.get_pid (Listing.listed_window a)
      /\ Listing.stable_seq data
         = Meta.get_stable_sequence (Listing.listed_window a)
      /\ Listing.gtk_app_id data
         = Meta.get_gtk_application_id (Listing.listed_window a))
  /\ (forall w1 w2 : Meta.Window,
        Listing.window_data w1 = Listing.window_data w2
        <-> Meta.wm_class w1 = Meta.wm_class w2
            /\ Meta.get_frame_rect w1 = Meta.get_frame_rect w2
            /\ Meta.minimized w1 = Meta.minimized w2
            /\ Meta.get_pid w1 = Meta.get_pid w2
            /\ Meta.get_stable_sequence w1 = Meta.get_stable_sequence w2
            /\ Meta.get_gtk_application_id w1 = Meta.get_gtk_application_id w2).
Proof.
  intros Hin. split.
  - apply in_list_all_windows in Hin as [[a [Ha ->]] _].
    exists a. repeat split; assumption || reflexivity.
  - intros w1 w2. unfold Listing.window_data. split.
    + intros E. injection E as Hc Hx Hy Hw Hh Hm Hp Hs Hg.
      repeat split; try assumption.
      destruct (Meta.get_frame_rect w1), (Meta.get_frame_rect w2).
      simpl in *. congruence.
    + intros (Hc & Hr & Hm & Hp & Hs & Hg). congruence.
Qed.

Lemma listing_record_carries_five_fields_witness :
  In (Listing.window_data Samples.main_window)
     (Listing.list_all_windows [Samples.main_actor])
  /\ Listing.window_data Samples.sandboxed_window
     = Listing.window_data Samples.main_window.
Proof.
  assert (Hin : In (Listing.window_data Samples.main_window)
                   (Listing.list_all_windows [Samples.main_actor]))
    by (simpl; auto).
  split; [exact Hin|].
  apply (listing_record_carries_five_fields [Samples.main_actor] _ Hin).
  repeat split.
Defined.

Lemma capture_records {locator : Resolver.DesktopEntryLocator}
    {inspector : Resolver.ProcessInspector}
    (windows : list Session.WindowRecord) :
  map fst (Capturer.capture windows)
  = filter Capturer.resolves (filter Capturer.geometry_filter windows).
Proof.
  unfold Capturer.capture.
  induction (filter Capturer.geometry_filter windows) as [|r l IH];
    [reflexivity|].
  cbn [flat_map filter]. rewrite map_app, IH.
  unfold Capturer.resolved_pair, Capturer.resolves.
  destruct (Resolver.resolve r); reflexivity.
Qed.

(** C8.  The listing is the records of the surviving windows in the
    enumeration order of the actors: it distributes over the concatenation of
    actor lists, and two records at positions [i < j] of the listing come from
    actors at positions [i' < j'] of the enumeration.  The records of a
    captured document are, in the same order, the windows of the query that
    pass the geometry filter and resolve. *)
Theorem listing_preserves_enumeration_order (actors : list Meta.WindowActor) :
  Listing.list_all_windows actors
  = map Listing.window_data (Listing.surviving_windows actors)
  /\ (forall l1 l2 : list Meta.WindowActor,
        actors = l1 ++ l2 ->
        Listing.list_all_windows actors
        = Listing.list_all_windows l1 ++ Listing.list_all_windows l2)
  /\ (forall (i j : nat) (d1 d2 : Listing.WindowData),
        (i < j)%nat ->
        nth_error (Listing.list_all_windows actors) i = Some d1 ->
        nth_error (Listing.list_all_windows actors) j = Some d2 ->
        exists (i' j' : nat) (a1 a2 : Meta.WindowActor),
          (i' < j')%nat
          /\ nth_error actors i' = Some a1
          /\ nth_error actors j' = Some a2
          /\ d1 = Listing.window_data (Listing.listed_window a1)
          /\ d2 = Listing.window_data (Listing.listed_window a2))
  /\ (forall (locator : Resolver.DesktopEntryLocator)
             (inspector : Resolver.ProcessInspector)
             (windows : list Session.WindowRecord),
        map fst (Capturer.capture windows)
        = filter Capturer.resolves (filter Capturer.geometry_filter windows)).
Proof.
  split; [|split; [|split]]; [| | |intros; apply capture_records].
  - unfold Listing.list_all_windows, Listing.surviving_windows.
    rewrite filter_map_commute. reflexivity.
  - intros l1 l2 ->. apply list_all_windows_app.
  - intros i j d1 d2 Hij H1 H2. rewrite list_all_windows_unfold in H1, H2.
    destruct (filter_nth_error_order _ _ i j d1 d2 Hij H1 H2)
      as (i' & j' & Hlt & Hi & Hj).
    rewrite nth_error_map in Hi, Hj.
    destruct (nth_error actors i') as [a1|] eqn:E1; [|discriminate].
    destruct (nth_error actors j') as [a2|] eqn:E2; [|discriminate].
    exists i', j', a1, a2. simpl in Hi, Hj.
    repeat split; try assumption; congruence.
Qed.

Lemma listing_preserves_enumeration_order_witness :
  Listing.list_all_windows
    [Samples.dialog_actor; Samples.hidden_actor; Samples.main_actor]
  = Listing.list_all_windows [Samples.dialog_actor; Samples.hidden_actor]
    ++ Listing.list_all_windows [Samples.main_actor].
Proof.
  apply (listing_preserves_enumeration_order
           [Samples.dialog_actor; Samples.hidden_actor; Samples.main_actor]).
  reflexivity.
Defined.

(** C9.  The listing does not deduplicate: the actor of a main window and
    the actor of a dialog that is transient for it are distinct, are listed
    as the same root window, and the listing holds that window's record
    twice, so the stable sequences of the listing repeat. *)
Theorem listing_repeats_shared_root_ancestor :
  exists (a1 a2 : Meta.WindowActor) (data : Listing.WindowData),
    a1 <> a2
    /\ Meta.meta_window a1 <> Meta.meta_window a2
    /\ Meta.find_root_ancestor (Meta.meta_window a1)
       = Meta.find_root_ancestor (Meta.meta_window a2)
    /\ 0 <= Listing.x (Listing.geom data)
    /\ 0 <= Listing.y (Listing.geom data)
    /\ Listing.list_all_windows [a1; a2] = [data; data]
    /\ ~ NoDup (map Listing.stable_seq (Listing.list_all_windows [a1; a2])).
Proof.
  exists Samples.main_actor, Samples.dialog_actor,
    (Listing.window_data Samples.main_window).
  assert (E : Listing.list_all_windows [Samples.main_actor; Samples.dialog_actor]
              = [Listing.window_data Samples.main_window;
                 Listing.window_data Samples.main_window]).
  { apply (shared_root_listed_twice Samples.main_actor Samples.dialog_actor);
      reflexivity. }
  repeat split; try discriminate; try (simpl; lia); try exact E.
  rewrite E. simpl. intros Hnd. inversion Hnd as [|? ? Hnot _]. apply Hnot.
  simpl. auto.
Qed.

(** C10.  A window whose frame rectangle has a non-negative origin is listed
    whatever its minimized flag is: the flag is copied into [geom.minimized]
    and the filter gives the same answer for both values of the flag. *)
Theorem minimized_flag_plays_no_part_in_filter
    (actors : list Meta.WindowActor) (a : Meta.WindowActor) :
  In a actors ->
  0 <= Meta.x (Meta.get_frame_rect (Listing.listed_window a)) ->
  0 <= Meta.y (Meta.get_frame_rect (Listing.listed_window a)) ->
  In (Listing.window_data (Listing.listed_window a))
     (Listing.list_all_windows actors)
  /\ Listing.minimized (Listing.geom (Listing.window_data (Listing.listed_window a)))
     = Meta.minimized (Listing.listed_window a)
  /\ (forall (b : bool) (w : Meta.Window),
        Listing.minimized
          (Listing.geom (Listing.window_data (Listing.with_minimized b w))) = b
        /\ Listing.origin_on_screen
             (Listing.window_data (Listing.with_minimized b w))
           = Listing.origin_on_screen (Listing.window_data w)).
Proof.
  intros Ha Hx Hy. split; [|split].
  - apply in_list_all_windows. split; [now exists a|].
    apply origin_on_screen_spec. simpl. lia.
  - reflexivity.
  - intros b w. split; reflexivity.
Qed.

Lemma minimized_flag_plays_no_part_in_filter_witness :
  In (Listing.window_data Samples.minimized_window)
     (Listing.list_all_windows [Meta.mkActor Samples.minimized_window])
  /\ Listing.minimized
       (Listing.geom (Listing.window_data Samples.minimized_window)) = true.
Proof.
  destruct (minimized_flag_plays_no_part_in_filter
              [Meta.mkActor Samples.minimized_window]
              (Meta.mkActor Samples.minimized_window)) as (Hin & Hmin & _).
  - simpl. auto.
  - simpl. lia.
  - simpl. lia.
  - split; [exact Hin|exact Hmin].
Defined.

(* ===================================================================== *)
(** * Properties of the Command Resolver *)
(* ===================================================================== *)

Example base_name_of_path : Resolver.base_name "/usr/bin/foo" = "foo".
Proof. reflexivity. Qed.

Example base_name_of_bare_name : Resolver.base_name "foo" = "foo".
Proof. reflexivity. Qed.

Lemma usable_id_some (id : string) :
  id <> "" -> Resolver.usable_id (Some id) = Some id.
Proof.
  intros Hne. unfold Resolver.usable_id.
  destruct (String.eqb_spec id ""); [contradiction|reflexivity].
Qed.

Lemma lookup_app_id_miss {locator : Resolver.DesktopEntryLocator}
    (id : option string) :
  (forall s, id = Some s -> s <> "" -> Resolver.lookup s = None) ->
  Resolver.lookup_app_id id = None.
Proof.
  intros H. unfold Resolver.lookup_app_id, Resolver.usable_id.
  destruct id as [s|]; [|reflexivity].
  destruct (String.eqb_spec s ""); [reflexivity|]. now apply H.
Qed.

(** C3.  When both application ids of a record are present, non-empty and
    resolve to desktop entries with different commands, the resolver returns
    the command of [gtk_app_id], tagged [GtkAppId]. *)
Theorem gtk_app_id_resolution_comes_first
    {locator : Resolver.DesktopEntryLocator}
    {inspector : Resolver.ProcessInspector}
    (record : Session.WindowRecord) (gtk sandboxed : string)
    (gtk_command sandboxed_command : list string) :
  Session.gtk_app_id record = Some gtk ->
  gtk <> "" ->
  Session.sandboxed_app_id record = Some sandboxed ->
  sandboxed <> "" ->
  Resolver.lookup gtk = Some gtk_command ->
  Resolver.lookup sandboxed = Some sandboxed_command ->
  gtk_command <> sandboxed_command ->
  Resolver.resolve record
  = Resolver.Resolved (Session.mkResolvedCommand gtk_command Session.GtkAppId)
  /\ Resolver.resolve record
     <> Resolver.Resolved
          (Session.mkResolvedCommand sandboxed_command Session.SandboxedAppId).
Proof.
  intros Hgtk Hne _ _ Hhit _ _.
  assert (E : Resolver.resolve record
              = Resolver.Resolved
                  (Session.mkResolvedCommand gtk_command Session.GtkAppId)).
  { unfold Resolver.resolve, Resolver.lookup_app_id.
    rewrite Hgtk, (usable_id_some gtk Hne), Hhit. reflexivity. }
  split; [exact E|]. rewrite E. discriminate.
Qed.

Lemma gtk_app_id_resolution_comes_first_witness :
  @Resolver.resolve Fakes.two_entries Fakes.one_process Fakes.both_ids
  = Resolver.Resolved (Session.mkResolvedCommand ["gedit"] Session.GtkAppId).
Proof.
  apply (@gtk_app_id_resolution_comes_first Fakes.two_entries Fakes.one_process
           Fakes.both_ids "org.gnome.gedit" "org.gnome.gedit.flatpak"
           ["gedit"] ["flatpak"; "run"; "org.gnome.gedit"]);
    try reflexivity; discriminate.
Defined.

(** C4.  For a record whose application ids are absent, empty or unknown to
    the locator, and whose window class and executable base name have no
    desktop entry, the resolver returns the live command-line arguments
    tagged [RawCmdline] when the process exists and reports arguments, and
    fails with [ProcessGone] when the process is gone or reports none. *)
Theorem raw_cmdline_is_the_last_resort
    {locator : Resolver.DesktopEntryLocator}
    {inspector : Resolver.ProcessInspector}
    (record : Session.WindowRecord) :
  (forall id, Session.gtk_app_id record = Some id -> id <> "" ->
              Resolver.lookup id = None) ->
  (forall id, Session.sandboxed_app_id record = Some id -> id <> "" ->
              Resolver.lookup id = None) ->
  Resolver.lookup (Session.window_class record) = None ->
  (forall exe rest,
      Resolver.read_cmdline (Session.pid record) = Some (exe :: rest) ->
      Resolver.lookup (Resolver.base_name exe) = None) ->
  (forall args,
      Resolver.read_cmdline (Session.pid record) = Some args ->
      args <> [] ->
      Resolver.resolve record
      = Resolver.Resolved (Session.mkResolvedCommand args Session.RawCmdline))
  /\ (Resolver.read_cmdline (Session.pid record) = None
      \/ Resolver.read_cmdline (Session.pid record) = Some [] ->
      Resolver.resolve record = Resolver.ResolutionFailure Resolver.ProcessGone).
Proof.
  intros Hgtk Hsandboxed Hclass Hexe.
  assert (E : Resolver.resolve record = Resolver.raw_cmdline record).
  { unfold Resolver.resolve.
    rewrite (lookup_app_id_miss _ Hgtk), (lookup_app_id_miss _ Hsandboxed).
    unfold Resolver.lookup_heuristic, Resolver.executable_base_name.
    rewrite Hclass.
    destruct (Resolver.read_cmdline (Session.pid record)) as [[|exe rest]|] eqn:R;
      try reflexivity.
    now rewrite (Hexe exe rest eq_refl). }
  rewrite E. unfold Resolver.raw_cmdline. split.
  - intros args -> Hne. destruct args; [contradiction|reflexivity].
  - intros [-> | ->]; reflexivity.
Qed.

Lemma raw_cmdline_is_the_last_resort_witness :
  @Resolver.resolve Fakes.two_entries Fakes.one_process Fakes.no_ids_live
  = Resolver.Resolved
      (Session.mkResolvedCommand ["/usr/bin/foo"; "--bar"] Session.RawCmdline)
  /\ @Resolver.resolve Fakes.two_entries Fakes.one_process Fakes.no_ids_gone
     = Resolver.ResolutionFailure Resolver.ProcessGone.
Proof.
  split.
  - apply (@raw_cmdline_is_the_last_resort Fakes.two_entries Fakes.one_process
             Fakes.no_ids_live); try discriminate; try reflexivity.
    intros exe rest H. injection H as <- _. reflexivity.
  - apply (@raw_cmdline_is_the_last_resort Fakes.two_entries Fakes.one_process
             Fakes.no_ids_gone); try discriminate; try reflexivity.
    + intros id H Hne. injection H as <-. now contradiction Hne.
    + left. reflexivity.
Defined.

(* ===================================================================== *)
(** * Properties of the session document format *)
(* ===================================================================== *)

Lemma traverse_as_str_map (args : list string) :
  Document.traverse Document.as_str (map Document.JStr args) = Some args.
Proof.
  induction args as [|a args IH]; [reflexivity|].
  simpl. rewrite IH. reflexivity.
Qed.

Lemma parse_source_name (s : Session.CommandSource) :
  Document.parse_source (Document.source_name s) = Some s.
Proof. destruct s; reflexivity. Qed.

Lemma parse_serialize_geometry (g : Session.Geometry) :
  Document.parse_geometry (Document.serialize_geometry g) = Some g.
Proof. destruct g. reflexivity. Qed.

Lemma parse_serialize_pair (omit_absent : bool)
    (pair : Session.WindowRecord * Session.ResolvedCommand) :
  Document.parse_pair (Document.serialize_pair omit_absent pair) = Some pair.
Proof.
  destruct pair as [[class [gx gy gw gh gm] p seq gtk sandboxed] [args src]].
  unfold Document.parse_pair, Document.serialize_pair, Document.optional_field.
  destruct gtk, sandboxed, omit_absent; simpl;
    unfold Document.required; simpl;
    rewrite traverse_as_str_map; simpl;
    rewrite parse_source_name; reflexivity.
Qed.

Lemma traverse_parse_serialize (omit_absent : bool) (doc : Session.SessionDocument) :
  Document.traverse Document.parse_pair
    (map (Document.serialize_pair omit_absent) doc) = Some doc.
Proof.
  induction doc as [|pair doc IH]; [reflexivity|].
  simpl. rewrite parse_serialize_pair, IH. reflexivity.
Qed.

(** C5.  Serializing a session document and parsing the result back yields
    the original document, pair for pair and field for field; the serialized
    array has one object per pair; a record without application ids is
    written without those two fields; and the form that writes absent ids as
    null is read back to the same document. *)
Theorem session_document_round_trip (doc : Session.SessionDocument) :
  Document.parse (Document.serialize doc) = Some doc
  /\ (exists items : list Document.JSON,
         Document.serialize doc = Document.JArr items
         /\ List.length items = List.length doc)
  /\ Document.parse (Document.serialize_with false doc) = Some doc
  /\ (forall (record : Session.WindowRecord) (command : Session.ResolvedCommand)
             (fields : list (string * Document.JSON)),
         In (record, command) doc ->
         Session.gtk_app_id record = None ->
         Session.sandboxed_app_id record = None ->
         Document.serialize_pair true (record, command) = Document.JObj fields ->
         Document.get_field "gtk_app_id" fields = None
         /\ Document.get_field "sandboxed_app_id" fields = None).
Proof.
  split; [|split; [|split]].
  - apply traverse_parse_serialize.
  - exists (map (Document.serialize_pair true) doc).
    split; [reflexivity|apply length_map].
  - apply traverse_parse_serialize.
  - intros record command fields _ Hgtk Hsandboxed E.
    unfold Document.serialize_pair in E. rewrite Hgtk, Hsandboxed in E.
    injection E as <-. split; reflexivity.
Qed.

Lemma session_document_round_trip_witness :
  Document.parse (Document.serialize Fakes.sample_document)
  = Some Fakes.sample_document
  /\ Document.get_field "gtk_app_id"
       [ ("window_class", Document.JStr "Foo");
         ("geometry", Document.serialize_geometry Fakes.plain_geometry);
         ("pid", Document.JNum 100);
         ("stable_sequence", Document.JNum 8);
         ("argv", Document.JArr [Document.JStr "/usr/bin/foo"; Document.JStr "--bar"]);
         ("source", Document.JStr "RawCmdline") ] = None.
Proof.
  destruct (session_document_round_trip Fakes.sample_document)
    as (Hround & _ & _ & Homit).
  split; [exact Hround|].
  apply (Homit Fakes.no_ids_live
           (Session.mkResolvedCommand ["/usr/bin/foo"; "--bar"] Session.RawCmdline));
    try reflexivity.
  simpl. auto.
Defined.

(* ===================================================================== *)
(** * Properties of the Window Matcher *)
(* ===================================================================== *)

Section MatcherFacts.

Import Matcher.

Context {ancestry : ProcessAncestry} {extension : Extension}.



Lemma choose_empty_class (used : list Z) (e : Entry)
    (observed : list Observation) :
  Session.window_class (record e) = "" -> choose used e observed = None.
Proof. intros E. unfold choose. now rewrite E. Qed.



(** An entry that is settled, or whose record has no class, is left as it
    is by a poll, at its position. *)
Lemma poll_entries_keeps (observed : list Observation) :
  forall (es : list Entry) (used : list Z) (sent : list MoveRequest)
         (i : nat) (e : Entry),
    nth_error es i = Some e ->
    is_pending e = false \/ Session.window_class (record e) = "" ->
    nth_error (fst (fst (poll_entries observed es used sent))) i = Some e.
Proof.
  induction es as [|e0 es IH]; intros used sent i e Hi Hkeep.
  - destruct i; discriminate Hi.
  - simpl. destruct i as [|i].
    + injection Hi as ->.
      destruct (state e) eqn:S.
      * destruct Hkeep as [Hp|Hc].
        { unfold is_pending in Hp. rewrite S in Hp. discriminate. }
        rewrite (choose_empty_class _ _ _ Hc).
        now destruct (poll_entries observed es used sent) as [[r u] q].
      * now destruct (poll_entries observed es used sent) as [[r u] q].
      * now destruct (poll_entries observed es used sent) as [[r u] q].
    + simpl in Hi.
      destruct (state e0).
      * destruct (choose used e0 observed) as [o|].
        { specialize (IH (stable_sequence o :: used)
                        (sent ++ [mkMoveRequest (stable_sequence o)
                                    (Session.geometry (record e0))])
                        i e Hi Hkeep).
          destruct (poll_entries observed es _ _) as [[r u] q]. exact IH. }
        { specialize (IH used sent i e Hi Hkeep).
          destruct (poll_entries observed es used sent) as [[r u] q]. exact IH. }
      * specialize (IH used sent i e Hi Hkeep).
        destruct (poll_entries observed es used sent) as [[r u] q]. exact IH.
      * specialize (IH used sent i e Hi Hkeep).
        destruct (poll_entries observed es used sent) as [[r u] q]. exact IH.
Qed.

Lemma poll_cycle_keeps (result : option (list Observation)) (run : Run)
    (i : nat) (e : Entry) :
  nth_error (entries run) i = Some e ->
  is_pending e = false \/ Session.window_class (record e) = "" ->
  nth_error (entries (poll_cycle result run)) i = Some e.
Proof.
  intros Hi Hkeep. destruct result as [observed|]; [|exact Hi].
  unfold poll_cycle, poll.
  pose proof (poll_entries_keeps observed (entries run) (consumed run)
                (requests run) i e Hi Hkeep) as H.
  destruct (poll_entries observed (entries run) (consumed run) (requests run))
    as [[r u] q]. exact H.
Qed.

Lemma settled_false (run : Run) (i : nat) (e : Entry) :
  nth_error (entries run) i = Some e -> state e = Pending ->
  settled run = false.
Proof.
  intros Hi S. unfold settled.
  destruct (forallb _ (entries run)) eqn:F; [|reflexivity].
  rewrite forallb_forall in F. apply nth_error_In in Hi.
  specialize (F e Hi). unfold is_pending in F. rewrite S in F. discriminate.
Qed.

Lemma last_nonempty_default {A : Type} (l : list A) (a d1 d2 : A) :
  last (a :: l) d1 = last (a :: l) d2.
Proof.
  revert a. induction l as [|b l IH]; intros a; [reflexivity|].
  change (last (b :: l) d1 = last (b :: l) d2). apply IH.
Qed.

Lemma matcher_loop_last_trace (polls_left tick : nat) (run : Run) :
  last (matcher_trace polls_left tick run) run = matcher_loop polls_left tick run.
Proof.
  revert tick run. induction polls_left as [|n IH]; intros tick run; simpl.
  - destruct (settled run); reflexivity.
  - destruct (settled run); [reflexivity|].
    specialize (IH (S tick) (poll_cycle (list_windows tick) run)).
    destruct (matcher_trace n (S tick) (poll_cycle (list_windows tick) run))
      as [|r rs] eqn:T.
    + destruct n; discriminate T.
    + rewrite <- IH. apply last_nonempty_default.
Qed.










End MatcherFacts.

Lemma state_at_entry (run : Matcher.Run) (i : nat) (e : Matcher.Entry) :
  nth_error (Matcher.entries run) i = Some e ->
  Matcher.state_at i run = Some (Matcher.state e).
Proof. intros H. unfold Matcher.state_at. now rewrite H. Qed.

Lemma time_out_entry {ancestry : Matcher.ProcessAncestry}
    {extension : Matcher.Extension}
    (run : Matcher.Run) (i : nat) (e : Matcher.Entry) :
  nth_error (Matcher.entries run) i = Some e ->
  nth_error (Matcher.entries (Matcher.time_out run)) i = Some (Matcher.expire e).
Proof.
  intros H. unfold Matcher.time_out. simpl. rewrite nth_error_map, H. reflexivity.
Qed.

(** The trace of a record without a class: pending at the start and after
    each poll, timed out at the end. *)
Lemma classless_trace {ancestry : Matcher.ProcessAncestry}
    {extension : Matcher.Extension} (i : nat) (e : Matcher.Entry) :
  Session.window_class (Matcher.record e) = "" ->
  Matcher.state e = Matcher.Pending ->
  forall (polls_left tick : nat) (run : Matcher.Run),
    nth_error (Matcher.entries run) i = Some e ->
    map (Matcher.state_at i) (Matcher.matcher_trace polls_left tick run)
    = repeat (Some Matcher.Pending) (S polls_left) ++ [Some Matcher.TimedOut]
    /\ nth_error (Matcher.entries (Matcher.matcher_loop polls_left tick run)) i
       = Some (Matcher.with_state e Matcher.TimedOut).
Proof.
  intros Hclass Hstate.
  induction polls_left as [|n IH]; intros tick run Hi;
    pose proof (settled_false run i e Hi Hstate) as Hs;
    pose proof (state_at_entry run i e Hi) as Hat; rewrite Hstate in Hat.
  - cbn [Matcher.matcher_trace Matcher.matcher_loop]. rewrite Hs.
    pose proof (time_out_entry run i e Hi) as Ht.
    unfold Matcher.expire in Ht. rewrite Hstate in Ht.
    split; [|exact Ht].
    cbn [map]. rewrite Hat, (state_at_entry _ _ _ Ht). reflexivity.
  - cbn [Matcher.matcher_trace Matcher.matcher_loop]. rewrite Hs.
    assert (Hi' : nth_error
                    (Matcher.entries
                       (Matcher.poll_cycle (Matcher.list_windows tick) run)) i
                  = Some e)
      by (apply poll_cycle_keeps; [exact Hi|now right]).
    destruct (IH (S tick) _ Hi') as [Htrace Hloop].
    split; [|exact Hloop].
    cbn [map]. rewrite Hat, Htrace. reflexivity.
Qed.

(** C7.  A record whose class is empty is matched by no poll: every poll
    leaves it pending at its position; through a run of [max_polls] polls its
    states are pending at the start and after each poll and timed out once,
    at the end, when the timeout elapses; the loop returns it timed out, and
    nothing moves it out of that state afterwards. *)
Theorem classless_record_pending_until_timeout
    {ancestry : Matcher.ProcessAncestry} {extension : Matcher.Extension}
    (max_polls tick : nat) (run : Matcher.Run) (i : nat) (e : Matcher.Entry) :
  nth_error (Matcher.entries run) i = Some e ->
  Session.window_class (Matcher.record e) = "" ->
  Matcher.state e = Matcher.Pending ->
  (forall result : option (list Matcher.Observation),
      Matcher.state_at i (Matcher.poll_cycle result run)
      = Some Matcher.Pending)
  /\ map (Matcher.state_at i) (Matcher.matcher_trace max_polls tick run)
     = repeat (Some Matcher.Pending) (S max_polls) ++ [Some Matcher.TimedOut]
  /\ last (Matcher.matcher_trace max_polls tick run) run
     = Matcher.matcher_loop max_polls tick run
  /\ Matcher.state_at i (Matcher.matcher_loop max_polls tick run)
     = Some Matcher.TimedOut
  /\ (forall result : option (list Matcher.Observation),
        Matcher.state_at i
          (Matcher.poll_cycle result (Matcher.matcher_loop max_polls tick run))
        = Some Matcher.TimedOut)
  /\ Matcher.state_at i
       (Matcher.time_out (Matcher.matcher_loop max_polls tick run))
     = Some Matcher.TimedOut.
Proof.
  intros Hi Hclass Hstate.
  destruct (classless_trace i e Hclass Hstate max_polls tick run Hi)
    as [Htrace Hloop].
  split; [|split; [exact Htrace|split; [apply matcher_loop_last_trace|split;
    [|split]]]].
  - intros result. rewrite (state_at_entry _ i e); [now rewrite Hstate|].
    apply poll_cycle_keeps; [exact Hi|now right].
  - now rewrite (state_at_entry _ _ _ Hloop).
  - intros result.
    rewrite (state_at_entry _ i (Matcher.with_state e Matcher.TimedOut));
      [reflexivity|].
    apply poll_cycle_keeps; [exact Hloop|now left].
  - now rewrite (state_at_entry _ _ _ (time_out_entry _ _ _ Hloop)).
Qed.

Lemma classless_record_pending_until_timeout_witness :
  map (Matcher.state_at 1)
    (@Matcher.matcher_trace Fakes.no_ancestry Fakes.two_gedit_windows 3 0
       (Matcher.start [(Fakes.both_ids, 300); (Fakes.no_class, 302)]))
  = [Some Matcher.Pending; Some Matcher.Pending; Some Matcher.Pending;
     Some Matcher.Pending; Some Matcher.TimedOut].
Proof.
  apply (@classless_record_pending_until_timeout
           Fakes.no_ancestry Fakes.two_gedit_windows 3 0
           (Matcher.start [(Fakes.both_ids, 300); (Fakes.no_class, 302)])
           1 (Matcher.mkEntry Fakes.no_class 302 Matcher.Pending));
    reflexivity.
Defined.









(* ===================================================================== *)
(** * Further properties of the listing *)
(* ===================================================================== *)

Lemma root_ancestor_has_no_parent :
  forall w : Meta.Window,
    Meta.get_transient_for (Meta.find_root_ancestor w) = None.
Proof.
  fix IH 1. intros [c r m p s g sb [parent|]]; simpl.
  - apply IH.
  - reflexivity.
Qed.

Lemma root_ancestor_of_transient (w parent : Meta.Window) :
  Meta.get_transient_for w = Some parent ->
  Meta.find_root_ancestor w = Meta.find_root_ancestor parent.
Proof.
  destruct w as [c r m p s g sb t]. simpl. intros ->. reflexivity.
Qed.

Lemma root_ancestor_of_root (w : Meta.Window) :
  Meta.get_transient_for w = None -> Meta.find_root_ancestor w = w.
Proof.
  destruct w as [c r m p s g sb t]. simpl. intros ->. reflexivity.
Qed.

Lemma filter_nil_iff {A : Type} (keep : A -> bool) (l : list A) :
  filter keep l = [] <-> forall a, In a l -> keep a = false.
Proof.
  induction l as [|a l IH]; simpl.
  - split; [intros _ b []|reflexivity].
  - destruct (keep a) eqn:K.
    + split; [discriminate|]. intros H. specialize (H a (or_introl eq_refl)).
      congruence.
    + rewrite IH. split.
      * intros H b [<-|Hb]; [exact K|now apply H].
      * intros H b Hb. apply H. now right.
Qed.

Lemma filter_length_le_all {A : Type} (keep : A -> bool) (l : list A) :
  (List.length (filter keep l) <= List.length l)%nat
  /\ (List.length (filter keep l) = List.length l
      <-> forall a, In a l -> keep a = true).
Proof.
  induction l as [|a l [IHle IHeq]]; simpl.
  - split; [lia|]. split; [intros _ b []|reflexivity].
  - destruct (keep a) eqn:K; simpl.
    + split; [lia|]. split.
      * intros E b [<-|Hb]; [exact K|]. apply IHeq; [lia|exact Hb].
      * intros H. f_equal. apply IHeq. intros b Hb. apply H. now right.
    + split; [lia|]. split; [lia|].
      intros H. specialize (H a (or_introl eq_refl)). congruence.
Qed.

Lemma NoDup_map_filter {A B : Type} (f : A -> B) (keep : A -> bool)
    (l : list A) :
  NoDup (map f l) -> NoDup (map f (filter keep l)).
Proof.
  induction l as [|a l IH]; simpl; [auto|].
  intros Hnd. inversion Hnd as [|? ? Hnot Hrest]; subst.
  destruct (keep a); [|now apply IH].
  simpl. constructor; [|now apply IH].
  intros Hin. apply Hnot. apply in_map_iff in Hin as [b [E Hb]].
  apply filter_In in Hb as [Hb _]. apply in_map_iff. now exists b.
Qed.

Lemma Permutation_filter_keep {A : Type} (keep : A -> bool) (l l' : list A) :
  Permutation l l' -> Permutation (filter keep l) (filter keep l').
Proof.
  induction 1 as [|a l l' _ IH|a b l|l l' l'' _ IH1 _ IH2]; simpl.
  - constructor.
  - destruct (keep a); [now constructor|exact IH].
  - destruct (keep a), (keep b); try apply Permutation_refl. constructor.
  - now transitivity (filter keep l').
Qed.

(** X1.  Every record of the listing is the record of a top-level window:
    the window some actor is listed as, which has no transient parent and is
    its own root ancestor. *)
Theorem listing_records_belong_to_root_windows
    (actors : list Meta.WindowActor) (data : Listing.WindowData) :
  In data (Listing.list_all_windows actors) ->
  exists a : Meta.WindowActor,
    In a actors
    /\ data = Listing.window_data (Listing.listed_window a)
    /\ Meta.get_transient_for (Listing.listed_window a) = None
    /\ Meta.find_root_ancestor (Listing.listed_window a)
       = Listing.listed_window a.
Proof.
  intros Hin. apply in_list_all_windows in Hin as [[a [Ha ->]] _].
  exists a. split; [exact Ha|]. split; [reflexivity|].
  pose proof (root_ancestor_has_no_parent (Meta.meta_window a)) as Hroot.
  split; [exact Hroot|]. now apply root_ancestor_of_root.
Qed.

Lemma listing_records_belong_to_root_windows_witness :
  exists a : Meta.WindowActor,
    In a [Samples.dialog_actor]
    /\ Listing.window_data Samples.main_window
       = Listing.window_data (Listing.listed_window a)
    /\ Meta.get_transient_for (Listing.listed_window a) = None
    /\ Meta.find_root_ancestor (Listing.listed_window a)
       = Listing.listed_window a.
Proof.
  apply (listing_records_belong_to_root_windows [Samples.dialog_actor]
           (Listing.window_data Samples.main_window)).
  simpl. auto.
Defined.

(** X2.  The actor of a window that is transient for another window is
    listed exactly as the actor of that parent: replacing one by the other
    anywhere in the enumeration leaves the listing unchanged. *)
Theorem transient_window_is_listed_as_its_parent
    (before after : list Meta.WindowActor) (w parent : Meta.Window) :
  Meta.get_transient_for w = Some parent ->
  Listing.list_all_windows (before ++ Meta.mkActor w :: after)
  = Listing.list_all_windows (before ++ Meta.mkActor parent :: after).
Proof.
  intros Ht. rewrite !list_all_windows_app.
  change (Meta.mkActor w :: after) with ([Meta.mkActor w] ++ after).
  change (Meta.mkActor parent :: after) with ([Meta.mkActor parent] ++ after).
  rewrite !list_all_windows_app. f_equal. f_equal.
  unfold Listing.list_all_windows. simpl.
  now rewrite (root_ancestor_of_transient w parent Ht).
Qed.

Lemma transient_window_is_listed_as_its_parent_witness :
  Listing.list_all_windows
    ([Samples.hidden_actor] ++ Meta.mkActor Samples.dialog_window :: [])
  = Listing.list_all_windows
      ([Samples.hidden_actor] ++ Meta.mkActor Samples.main_window :: []).
Proof.
  apply (transient_window_is_listed_as_its_parent [Samples.hidden_actor] []
           Samples.dialog_window Samples.main_window).
  reflexivity.
Defined.

(** X3.  The listing neither merges nor multiplies records: for every test
    on records, the number of listed records that pass it is the number of
    actors whose window is on screen and whose record passes it.  So the
    listing is never longer than the enumeration, and it is as long exactly
    when every actor's window has a non-negative origin. *)
Theorem listing_counts_actors_on_screen (actors : list Meta.WindowActor) :
  (forall test : Listing.WindowData -> bool,
      List.length (filter test (Listing.list_all_windows actors))
      = List.length
          (filter
             (fun a =>
                Listing.on_screen (Listing.listed_window a)
                && test (Listing.window_data (Listing.listed_window a)))
             actors))
  /\ (List.length (Listing.list_all_windows actors) <= List.length actors)%nat
  /\ (List.length (Listing.list_all_windows actors) = List.length actors
      <-> forall a, In a actors ->
                    0 <= Meta.x (Meta.get_frame_rect (Listing.listed_window a))
                    /\ 0 <= Meta.y (Meta.get_frame_rect (Listing.listed_window a))).
Proof.
  split; [|split].
  - intros test. rewrite list_all_windows_unfold.
    induction actors as [|a actors IH]; [reflexivity|].
    cbn [map filter]. rewrite on_screen_window_data.
    destruct (Listing.on_screen (Listing.listed_window a)); cbn [filter andb].
    + destruct (test _); simpl; now rewrite IH.
    + exact IH.
  - rewrite list_all_windows_unfold.
    rewrite <- (length_map (fun a => Listing.window_data (Listing.listed_window a))
                  actors).
    apply filter_length_le_all.
  - rewrite list_all_windows_unfold.
    rewrite <- (length_map (fun a => Listing.window_data (Listing.listed_window a))
                  actors).
    rewrite (proj2 (filter_length_le_all _ _)). split.
    + intros H a Ha.
      apply (origin_on_screen_spec
               (Listing.window_data (Listing.listed_window a))).
      apply H, in_map_iff. now exists a.
    + intros H d Hd. apply in_map_iff in Hd as [a [<- Ha]].
      apply origin_on_screen_spec. now apply H.
Qed.

Lemma listing_counts_actors_on_screen_witness :
  List.length
    (Listing.list_all_windows [Samples.main_actor; Samples.dialog_actor])
  = List.length [Samples.main_actor; Samples.dialog_actor].
Proof.
  apply (listing_counts_actors_on_screen
           [Samples.main_actor; Samples.dialog_actor]).
  intros a [<-|[<-|[]]]; simpl; lia.
Defined.

(** X4.  The listing is empty exactly when every actor's window has a
    negative coordinate in its frame-rectangle origin; in particular an
    empty enumeration gives an empty listing. *)
Theorem listing_empty_iff_all_off_screen (actors : list Meta.WindowActor) :
  (Listing.list_all_windows actors = []
   <-> forall a, In a actors ->
                 Meta.x (Meta.get_frame_rect (Listing.listed_window a)) < 0
                 \/ Meta.y (Meta.get_frame_rect (Listing.listed_window a)) < 0)
  /\ Listing.list_all_windows [] = [].
Proof.
  split; [|reflexivity].
  rewrite list_all_windows_unfold, filter_nil_iff. split.
  - intros H a Ha.
    assert (K : Listing.origin_on_screen
                  (Listing.window_data (Listing.listed_window a)) = false)
      by (apply H, in_map_iff; now exists a).
    unfold Listing.origin_on_screen in K. simpl in K.
    apply andb_false_iff in K as [K|K];
      rewrite Z.geb_leb in K; apply Z.leb_gt in K; lia.
  - intros H d Hd. apply in_map_iff in Hd as [a [<- Ha]].
    unfold Listing.origin_on_screen. simpl.
    apply andb_false_iff.
    destruct (H a Ha) as [K|K]; [left|right];
      rewrite Z.geb_leb; apply Z.leb_gt; lia.
Qed.

Lemma listing_empty_iff_all_off_screen_witness :
  Listing.list_all_windows [Samples.hidden_actor; Samples.hidden_actor] = [].
Proof.
  apply (proj1 (listing_empty_iff_all_off_screen
                  [Samples.hidden_actor; Samples.hidden_actor])).
  intros a [<-|[<-|[]]]; simpl; lia.
Defined.

(** X5.  When the windows the actors are listed as have pairwise distinct
    stable sequences, so do the records of the listing: a repeated
    [stable_seq] only comes from actors that share a root ancestor or from
    windows that already share a stable sequence. *)
Theorem listing_keeps_stable_sequences_distinct
    (actors : list Meta.WindowActor) :
  NoDup (map (fun a => Meta.get_stable_sequence (Listing.listed_window a))
           actors) ->
  NoDup (map Listing.stable_seq (Listing.list_all_windows actors)).
Proof.
  intros Hnd. rewrite list_all_windows_unfold.
  apply NoDup_map_filter. rewrite map_map. exact Hnd.
Qed.

Lemma listing_keeps_stable_sequences_distinct_witness :
  NoDup (map Listing.stable_seq
           (Listing.list_all_windows
              [Samples.main_actor; Samples.hidden_actor])).
Proof.
  apply (listing_keeps_stable_sequences_distinct
           [Samples.main_actor; Samples.hidden_actor]).
  simpl. repeat constructor; simpl; intuition discriminate.
Defined.

(** X6.  The records of the listing do not depend on the order of the
    enumeration: reordering the actors reorders the listing and changes
    nothing else. *)
Theorem listing_of_reordered_actors (actors actors' : list Meta.WindowActor) :
  Permutation actors actors' ->
  Permutation (Listing.list_all_windows actors)
    (Listing.list_all_windows actors').
Proof.
  intros Hp. rewrite !list_all_windows_unfold.
  apply Permutation_filter_keep, Permutation_map, Hp.
Qed.

Lemma listing_of_reordered_actors_witness :
  Permutation
    (Listing.list_all_windows [Samples.main_actor; Samples.hidden_actor])
    (Listing.list_all_windows [Samples.hidden_actor; Samples.main_actor]).
Proof.
  apply (listing_of_reordered_actors
           [Samples.main_actor; Samples.hidden_actor]
           [Samples.hidden_actor; Samples.main_actor]).
  apply perm_swap.
Defined.
